(** * gs_quant.timeseries.algebra: a shallow embedding

    The module under study is [gs_quant/timeseries/algebra.py]: four binary
    operators ([add], [subtract], [multiply], [divide]) that first align
    two date-indexed series and then combine them pointwise, and a handful
    of unary maps ([exp], [log], [power], [sqrt], [abs_], [floor], [ceil]).

    Data model.
    - A timestamp is an integer ([Z]); calendar dates are turned into proleptic
      Gregorian ordinals the way Python's [date.toordinal] does.
    - A value is an IEEE-754 binary64 number ([PrimFloat.float]), which is what
      a Python [float] and a numpy [float64] are.  The missing marker of pandas
      is [nan].
    - A series is the list of its (timestamp, value) rows in storage order, so
      that unsorted and duplicated indices can be written down.
    - Python exceptions are an explicit error type, and every function that can
      raise returns a [result].

    What [algebra.py] imports.  [align] and [Interpolate] come from
    [gs_quant/timeseries/datetime.py]: the operators are written against an
    arbitrary alignment engine, and [Datetime.align] is the engine section 4.1
    of the specification describes.  [np.exp], [np.log] and [np.power] end in
    the C library and are arguments of [exp], [log] and [power]; square root,
    absolute value, the four arithmetic operations and the comparisons are
    those of binary64. *)

From Stdlib Require Import ZArith List Bool Lia Sorted Floats.
Import ListNotations.

Open Scope Z_scope.

(** ** Exceptions and results *)

Inductive exn : Type :=
| AssertionError        (* a failed [assert] *)
| AttributeError        (* method lookup on an object that lacks it *)
| ValueError            (* [math] domain error *)
| ValueConstraintError. (* the precondition error named by the specification *)

Inductive result (A : Type) : Type :=
| Ok (a : A)
| Raise (e : exn).

Arguments Ok {A} a.
Arguments Raise {A} e.

Definition bind {A B : Type} (r : result A) (k : A -> result B) : result B :=
  match r with
  | Ok a => k a
  | Raise e => Raise e
  end.

Definition result_map {A B : Type} (f : A -> B) (r : result A) : result B :=
  bind r (fun a => Ok (f a)).

Notation "' p <- r ;; k" := (bind r (fun p => k))
  (at level 61, p pattern, r at next level, right associativity).

(** ** Timestamps *)

Definition timestamp : Type := Z.

(** Python's [datetime._is_leap], [_days_before_year], [_days_before_month]
    and [_ymd2ord], which is what [date(y, m, d).toordinal()] returns. *)
Definition is_leap (y : Z) : bool :=
  (y mod 4 =? 0) && (negb (y mod 100 =? 0) || (y mod 400 =? 0)).

Definition days_before_year (y : Z) : Z :=
  let p := y - 1 in p * 365 + p / 4 - p / 100 + p / 400.

Definition days_before_month (y m : Z) : Z :=
  nth (Z.to_nat m) [0; 0; 31; 59; 90; 120; 151; 181; 212; 243; 273; 304; 334] 0
  + (if (2 <? m) && is_leap y then 1 else 0).

Definition toordinal (y m d : Z) : timestamp :=
  days_before_year y + days_before_month y m + d.

(** ** Binary64 values *)

Module F.

(** Two values agree when they compare equal as numbers or are both the
    missing marker: the comparison [pandas.Series.equals] and
    [numpy.array_equal (equal_nan=True)] make. *)
Definition same_value (a b : float) : bool :=
  (a =? b)%float || (is_nan a && is_nan b).

(** Python's builtin [max (a, b)]: start from [a], switch to [b] when
    [b > a]. *)
Definition py_max (a b : float) : float :=
  if (a <? b)%float then b else a.

(** Python's builtin [min (a, b)]: start from [a], switch to [b] when
    [b < a]. *)
Definition py_min (a b : float) : float :=
  if (b <? a)%float then b else a.

(** CPython's [math.sqrt]: the C [sqrt], with a result that is not a number
    for an argument that is one reported as [ValueError]
    ("math domain error"). *)
Definition math_sqrt (x : float) : result float :=
  let r := PrimFloat.sqrt x in
  if is_nan r && negb (is_nan x) then Raise ValueError else Ok r.

(** The order-theoretic reading of "r is the maximum of a and b": [r] is one
    of the two, neither of them is strictly above it, and when both are
    numbers it is an upper bound of both. *)
Definition is_max_of (r a b : float) : Prop :=
  (r = a \/ r = b) /\
  (r <? a)%float = false /\ (r <? b)%float = false /\
  (is_nan a = false -> is_nan b = false ->
   (a <=? r)%float = true /\ (b <=? r)%float = true).

(** Dually for the minimum. *)
Definition is_min_of (r a b : float) : Prop :=
  (r = a \/ r = b) /\
  (a <? r)%float = false /\ (b <? r)%float = false /\
  (is_nan a = false -> is_nan b = false ->
   (r <=? a)%float = true /\ (r <=? b)%float = true).

End F.

(** ** Series *)

Definition series : Type := list (timestamp * float).

Definition index (s : series) : list timestamp := map fst s.
Definition values (s : series) : list float := map snd s.

(** [pandas.Index.is_monotonic_increasing]: every label is at least its
    predecessor (equal neighbours are accepted). *)
Fixpoint is_monotonic_increasing (idx : list timestamp) : bool :=
  match idx with
  | [] => true
  | t :: rest =>
      match rest with
      | [] => true
      | u :: _ => (t <=? u) && is_monotonic_increasing rest
      end
  end.

(** The timeseries invariant of the data model: labels strictly increase. *)
Fixpoint strictly_ascending (idx : list timestamp) : bool :=
  match idx with
  | [] => true
  | t :: rest =>
      match rest with
      | [] => true
      | u :: _ => (t <? u) && strictly_ascending rest
      end
  end.

(** Some label is smaller than the one stored just before it. *)
Definition has_descent (idx : list timestamp) : Prop :=
  exists (i : nat) (t u : timestamp),
    nth_error idx i = Some t /\ nth_error idx (S i) = Some u /\ u < t.

(** [Series.apply (f)]: [f] on every value, labels untouched. *)
Definition apply (f : float -> float) (s : series) : series :=
  map (fun row => (fst row, f (snd row))) s.

(** [pd.Series (v, index=idx)]: the scalar [v] at every label. *)
Definition broadcast (v : float) (idx : list timestamp) : series :=
  map (fun t => (t, v)) idx.

(** [pd.Series (vs)]: values under the default labels 0, 1, 2, ... *)
Definition range_series (vs : list float) : series :=
  combine (map Z.of_nat (seq 0 (length vs))) vs.

(** ** pandas: label lookup, joins and flexible arithmetic *)

(** The value stored under label [t], if any (first match). *)
Fixpoint lookup (t : timestamp) (s : series) : option float :=
  match s with
  | [] => None
  | (u, v) :: rest => if u =? t then Some v else lookup t rest
  end.

(** The last observation at or before [t]: the value carried forward to [t]. *)
Fixpoint asof (t : timestamp) (s : series) : option float :=
  match s with
  | [] => None
  | (u, v) :: rest =>
      match asof t rest with
      | Some w => Some w
      | None => if u <=? t then Some v else None
      end
  end.

(** Insert a label into an ascending index, keeping it ascending and free of
    repetitions. *)
Fixpoint insert_label (t : timestamp) (idx : list timestamp) : list timestamp :=
  match idx with
  | [] => [t]
  | u :: rest =>
      if t <? u then t :: idx
      else if t =? u then idx
      else u :: insert_label t rest
  end.

(** Outer join of two ascending indices: their union, ascending. *)
Definition union_index (i j : list timestamp) : list timestamp :=
  fold_right insert_label i j.

(** Inner join of two ascending indices: the labels of [i] also in [j]. *)
Definition intersect_index (i j : list timestamp) : list timestamp :=
  filter (fun t => existsb (Z.eqb t) j) i.

(** [Series.reindex (idx)] with a rule for the labels the series lacks. *)
Definition reindex (fill : timestamp -> float) (idx : list timestamp)
  (s : series) : series :=
  map (fun t => (t, match lookup t s with Some v => v | None => fill t end)) idx.

(** Row-by-row combination of two series that carry the same labels. *)
Fixpoint zip_with (op : float -> float -> float) (x y : series) : series :=
  match x, y with
  | (t, a) :: x', (_, b) :: y' => (t, op a b) :: zip_with op x' y'
  | _, _ => []
  end.

(** [Series.add], [.subtract], [.multiply], [.divide] on two series: operands
    whose indices are equal are combined row by row; otherwise pandas first
    outer-joins them (described here for ascending indices without
    repetitions), a label missing on one side contributing [nan]. *)
Definition flex_op (op : float -> float -> float) (x y : series) : series :=
  if list_eq_dec Z.eq_dec (index x) (index y) then zip_with op x y
  else
    let idx := union_index (index x) (index y) in
    zip_with op (reindex (fun _ => nan) idx x) (reindex (fun _ => nan) idx y).

(** ** Operands and alignment methods *)

(** The operators take "timeseries or scalar" arguments. *)
Inductive operand : Type :=
| Scalar (v : float)
| Series (s : series).

(** Modelled from the spec: the enumeration [Interpolate] is declared in
    [gs_quant/timeseries/datetime.py], which [algebra.py] imports and which is
    not among the sources; sections 3 and 4.1 of the specification list its
    values. *)
Inductive Interpolate : Type :=
| INTERSECT
| NAN
| ZERO
| STEP.

(** A method call [x.m (y)] of the four flexible operators.  A Python number
    has no such method; a series accepts a series or a scalar argument. *)
Definition series_method (op : float -> float -> float) (x y : operand)
  : result series :=
  match x, y with
  | Series xs, Series ys => Ok (flex_op op xs ys)
  | Series xs, Scalar b => Ok (apply (fun a => op a b) xs)
  | Scalar _, _ => Raise AttributeError
  end.

(** ** The alignment engine *)

Module Datetime.

(** The value a side contributes at label [t] of the joined index. *)
Definition value_at (method : Interpolate) (s : series) (t : timestamp) : float :=
  match lookup t s with
  | Some v => v
  | None =>
      match method with
      | INTERSECT => nan
      | NAN => nan
      | ZERO => 0%float
      | STEP => match asof t s with Some w => w | None => nan end
      end
  end.

Definition joined_index (method : Interpolate) (i j : list timestamp)
  : list timestamp :=
  match method with
  | INTERSECT => intersect_index i j
  | NAN | ZERO | STEP => union_index i j
  end.

Definition resolve (method : Interpolate) (idx : list timestamp) (s : series)
  : series :=
  map (fun t => (t, value_at method s t)) idx.

(** Modelled from the spec: [align] is defined in
    [gs_quant/timeseries/datetime.py], which [algebra.py] imports and which is
    not among the sources.  The definition follows section 4.1 of the
    specification: two scalars come back unchanged; a scalar next to a series
    is broadcast over the labels of the series; two series are joined
    (intersection for INTERSECT, ascending union otherwise), each side keeping
    its own values and receiving at a label it lacks the missing marker (NAN),
    zero (ZERO) or its last earlier observation, the missing marker when
    there is none (STEP); a series whose labels are not strictly ascending
    fails with [ValueConstraintError]. *)
Definition align (x y : operand) (method : Interpolate)
  : result (operand * operand) :=
  match x, y with
  | Scalar a, Scalar b => Ok (Scalar a, Scalar b)
  | Scalar a, Series ys =>
      if strictly_ascending (index ys)
      then Ok (Series (broadcast a (index ys)), Series ys)
      else Raise ValueConstraintError
  | Series xs, Scalar b =>
      if strictly_ascending (index xs)
      then Ok (Series xs, Series (broadcast b (index xs)))
      else Raise ValueConstraintError
  | Series xs, Series ys =>
      if strictly_ascending (index xs) && strictly_ascending (index ys)
      then
        let idx := joined_index method (index xs) (index ys) in
        Ok (Series (resolve method idx xs), Series (resolve method idx ys))
      else Raise ValueConstraintError
  end.

End Datetime.

(** ** The operators of [algebra.py] *)

Module Algebra.

(** [align] comes from the [datetime] module; the operators are written
    against whatever alignment engine they are linked with. *)
Section Operators.
Variable align : operand -> operand -> Interpolate -> result (operand * operand).

Definition add (x y : operand) (method : Interpolate) : result series :=
  '(x_align, y_align) <- align x y method ;;
  series_method PrimFloat.add x_align y_align.

Definition subtract (x y : operand) (method : Interpolate) : result series :=
  '(x_align, y_align) <- align x y method ;;
  series_method PrimFloat.sub x_align y_align.

Definition multiply (x y : operand) (method : Interpolate) : result series :=
  '(x_align, y_align) <- align x y method ;;
  series_method PrimFloat.mul x_align y_align.

Definition divide (x y : operand) (method : Interpolate) : result series :=
  '(x_align, y_align) <- align x y method ;;
  series_method PrimFloat.div x_align y_align.

End Operators.

(** [np.sqrt (x) if isinstance (x, pd.Series) else math.sqrt (x)] *)
Definition sqrt (x : operand) : result operand :=
  match x with
  | Series s => Ok (Series (apply PrimFloat.sqrt s))
  | Scalar v => result_map Scalar (F.math_sqrt v)
  end.

(** [abs (x)] *)
Definition abs_ (x : series) : series := apply PrimFloat.abs x.

(** [assert x.index.is_monotonic_increasing] followed by
    [x.apply (lambda y: max (y, value))]. *)
Definition floor (x : series) (value : float) : result series :=
  if is_monotonic_increasing (index x)
  then Ok (apply (fun y => F.py_max y value) x)
  else Raise AssertionError.

(** [assert x.index.is_monotonic_increasing] followed by
    [x.apply (lambda y: min (y, value))]. *)
Definition ceil (x : series) (value : float) : result series :=
  if is_monotonic_increasing (index x)
  then Ok (apply (fun y => F.py_min y value) x)
  else Raise AssertionError.

(** Defaults of the keyword arguments. *)
Definition default_method : Interpolate := STEP.
Definition default_value : float := 0%float.
Definition default_exponent : float := 1%float.

(** [exp], [log] and [power] hand the series to numpy's [exp], [log] and
    [power], which work value by value through the C library.  Those
    kernels are arguments of the embedding. *)
Section Kernels.
Variables np_exp np_log : float -> float.
Variable np_power : float -> float -> float.

Definition exp (x : series) : series := apply np_exp x.
Definition log (x : series) : series := apply np_log x.
Definition power (x : series) (y : float) : series :=
  apply (fun v => np_power v y) x.
End Kernels.

End Algebra.

(** ** Comparing series, and the series of the worked examples *)

(** Same labels, and values that agree row by row. *)
Fixpoint same_series (x y : series) : bool :=
  match x, y with
  | [], [] => true
  | (t, a) :: x', (u, b) :: y' => (t =? u) && F.same_value a b && same_series x' y'
  | _, _ => false
  end.

(** The index a result carries, or the exception raised instead. *)
Definition result_index (r : result series) : result (list timestamp) :=
  result_map index r.

Module Scenario.

Definition jan01 : timestamp := toordinal 2020 1 1.
Definition jan02 : timestamp := toordinal 2020 1 2.
Definition jan03 : timestamp := toordinal 2020 1 3.

Definition a : series := [(jan01, 1%float); (jan03, 3%float)].
Definition b : series := [(jan02, 2%float); (jan03, 4%float)].

(** Two rows under one label: monotonic, yet not strictly ascending. *)
Definition repeated : series := [(jan01, (-5)%float); (jan01, 5%float)].

(** A later row under an earlier label. *)
Definition descending : series := [(jan02, (-5)%float); (jan01, 5%float)].

End Scenario.

(** The series of the worked example after alignment.  Under NAN a side
    is missing at a label it lacks, under ZERO it is zero there.  Under STEP
    a carries its value 1 forward to 01-02; what b receives at 01-01, a date
    before its first observation, is left open as [b0]. *)
Module Example.

Definition a_nan : series :=
  [(Scenario.jan01, 1%float); (Scenario.jan02, nan); (Scenario.jan03, 3%float)].
Definition b_nan : series :=
  [(Scenario.jan01, nan); (Scenario.jan02, 2%float); (Scenario.jan03, 4%float)].

Definition a_zero : series :=
  [(Scenario.jan01, 1%float); (Scenario.jan02, 0%float); (Scenario.jan03, 3%float)].
Definition b_zero : series :=
  [(Scenario.jan01, 0%float); (Scenario.jan02, 2%float); (Scenario.jan03, 4%float)].



End Example.

(** * Facts about binary64 arithmetic *)

Module FloatFacts.

Open Scope float_scope.

Lemma SFcompare_refl_not_Lt (f : spec_float) : SFcompare f f <> Some Lt.
Proof.
  destruct f as [s | s | | s m e]; simpl; try destruct s; try discriminate.
  - rewrite Z.compare_refl, Pos.compare_cont_refl. discriminate.
  - rewrite Z.compare_refl, Pos.compare_cont_refl. discriminate.
Qed.

Lemma compare_cont_flip (m m' : positive) :
  Pos.compare_cont Eq m' m = CompOpp (Pos.compare_cont Eq m m').
Proof. symmetry. exact (Pos.compare_cont_antisym m m' Eq). Qed.

Lemma SFcompare_antisym (f g : spec_float) :
  SFcompare g f = option_map CompOpp (SFcompare f g).
Proof.
  destruct f as [s | s | | s m e], g as [s' | s' | | s' m' e']; simpl;
    try destruct s; try destruct s'; try reflexivity;
    rewrite (Z.compare_antisym e e'), (compare_cont_flip m m');
    destruct (e ?= e')%Z; simpl; try reflexivity;
    now destruct (Pos.compare_cont Eq m m').
Qed.

Lemma SFcompare_Lt_flip (f g : spec_float) :
  SFcompare f g = Some Lt -> SFcompare g f = Some Gt.
Proof. intros H. now rewrite SFcompare_antisym, H. Qed.

Lemma ltb_irrefl (x : float) : (x <? x) = false.
Proof.
  rewrite ltb_spec. unfold SFltb.
  destruct (SFcompare (Prim2SF x) (Prim2SF x)) as [[| |]|] eqn:E; try reflexivity.
  now apply SFcompare_refl_not_Lt in E.
Qed.

Lemma ltb_asym (x y : float) : (x <? y) = true -> (y <? x) = false.
Proof.
  rewrite !ltb_spec. unfold SFltb.
  destruct (SFcompare (Prim2SF x) (Prim2SF y)) as [[| |]|] eqn:E; try discriminate.
  intros _. now rewrite (SFcompare_Lt_flip _ _ E).
Qed.

Lemma is_nan_spec (x : float) :
  is_nan x = negb (SFeqb (Prim2SF x) (Prim2SF x)).
Proof. unfold is_nan. now rewrite eqb_spec. Qed.

Lemma same_value_refl (x : float) : F.same_value x x = true.
Proof. unfold F.same_value, is_nan. now destruct (x =? x). Qed.

(** Adding zero changes no value: it only turns [-0] into [+0]. *)
Lemma add_zero_same (x : float) : F.same_value (x + 0) x = true.
Proof.
  destruct (Prim2SF x) as [s | s | | s m e] eqn:E.
  1: destruct s.
  2-5: replace (x + 0) with x;
    [ apply same_value_refl
    | apply Prim2SF_inj; rewrite add_spec, E; reflexivity ].
  unfold F.same_value. rewrite eqb_spec, add_spec, E. reflexivity.
Qed.

Lemma is_zero_spec (d : float) :
  is_zero d = true -> exists s, Prim2SF d = S754_zero s.
Proof.
  unfold is_zero. rewrite eqb_spec.
  change (Prim2SF zero) with (S754_zero false).
  destruct (Prim2SF d) as [s | s | | s m e]; unfold SFeqb; simpl;
    try destruct s; try discriminate; eauto.
Qed.

(** A quotient by zero is an infinity or not a number, never an error. *)
Lemma div_by_zero (n d : float) :
  is_zero d = true -> is_infinity (n / d) || is_nan (n / d) = true.
Proof.
  intros [s Hd]%is_zero_spec.
  unfold is_infinity. rewrite is_nan_spec, eqb_spec, abs_spec, div_spec, Hd.
  change (Prim2SF infinity) with (S754_infinity false).
  destruct (Prim2SF n) as [sn | sn | | sn m e]; reflexivity.
Qed.

Lemma negative_spec (x : float) :
  (x <? 0) = true ->
  Prim2SF x = S754_infinity true \/ exists m e, Prim2SF x = S754_finite true m e.
Proof.
  rewrite ltb_spec. change (Prim2SF 0) with (S754_zero false).
  destruct (Prim2SF x) as [s | s | | s m e]; unfold SFltb; simpl;
    try destruct s; try discriminate; eauto.
Qed.

(** The square root of a negative number is not a number. *)
Lemma sqrt_negative (x : float) :
  (x <? 0) = true -> is_nan (PrimFloat.sqrt x) = true /\ is_nan x = false.
Proof.
  intros H. rewrite !is_nan_spec, sqrt_spec.
  destruct (negative_spec x H) as [E | (m & e & E)]; rewrite E;
    split; try reflexivity.
  unfold SFeqb; simpl. now rewrite Z.compare_refl, Pos.compare_cont_refl.
Qed.

Lemma math_sqrt_negative (x : float) :
  (x <? 0) = true -> F.math_sqrt x = Raise ValueError.
Proof.
  intros H. unfold F.math_sqrt.
  destruct (sqrt_negative x H) as [-> ->]. reflexivity.
Qed.

Lemma SFcompare_refl (f : spec_float) : f <> S754_nan -> SFcompare f f = Some Eq.
Proof.
  destruct f as [s | s | | s m e]; simpl; try destruct s; try congruence;
    intros _; now rewrite Z.compare_refl, Pos.compare_cont_refl.
Qed.

Lemma is_nan_false (x : float) : Prim2SF x <> S754_nan -> is_nan x = false.
Proof.
  intros H. rewrite is_nan_spec. unfold SFeqb. now rewrite SFcompare_refl.
Qed.

Local Open Scope Z_scope.

(** Rounding a non-negative mantissa never produces the [S754_nan] of the
    unreachable branch of [binary_round_aux]. *)
Lemma shr_1_nonneg mrs : 0 <= shr_m mrs -> 0 <= shr_m (shr_1 mrs).
Proof.
  destruct mrs as [m r s]. simpl. destruct m as [| [p | p |] | p]; simpl; lia.
Qed.

Lemma iter_shr_1_nonneg p : forall mrs, 0 <= shr_m mrs -> 0 <= shr_m (iter_pos shr_1 p mrs).
Proof.
  induction p as [p IH | p IH |]; simpl; intros mrs H.
  - apply IH, IH, shr_1_nonneg, H.
  - apply IH, IH, H.
  - apply shr_1_nonneg, H.
Qed.

Lemma shr_fexp_nonneg m e l : 0 <= m -> 0 <= shr_m (fst (shr_fexp prec emax m e l)).
Proof.
  intros H. unfold shr_fexp, shr.
  assert (H0 : 0 <= shr_m (shr_record_of_loc m l)) by (destruct l as [| []]; exact H).
  destruct (fexp prec emax (Zdigits2 m + e) - e); simpl; auto.
  now apply iter_shr_1_nonneg.
Qed.

Lemma round_nearest_even_nonneg m l : 0 <= m -> 0 <= round_nearest_even m l.
Proof.
  intros H. destruct l as [| []]; simpl; try lia. destruct (Z.even m); lia.
Qed.

Lemma binary_round_aux_number sx mx ex lx :
  0 <= mx -> binary_round_aux prec emax sx mx ex lx <> S754_nan.
Proof.
  intros H. unfold binary_round_aux.
  pose proof (shr_fexp_nonneg mx ex lx H) as H1.
  destruct (shr_fexp prec emax mx ex lx) as [mrs' e']. simpl in H1.
  pose proof (shr_fexp_nonneg _ e' loc_Exact
                (round_nearest_even_nonneg _ (loc_of_shr_record mrs') H1)) as H2.
  destruct (shr_fexp prec emax _ e' loc_Exact) as [mrs'' e'']. simpl in H2.
  destruct (shr_m mrs''); try discriminate; try lia.
  destruct (e'' <=? emax - prec); discriminate.
Qed.

Lemma sqrtrem_nonneg n : 0 <= fst (Z.sqrtrem n).
Proof.
  destruct n as [| p | p]; simpl; try lia.
  destruct (Pos.sqrtrem p) as [s [| r |]]; simpl; lia.
Qed.

Lemma SFsqrt_number m e : SF64sqrt (S754_finite false m e) <> S754_nan.
Proof.
  unfold SF64sqrt, SFsqrt, SFsqrt_core_binary.
  pose proof (sqrtrem_nonneg
    match e - 2 * Z.min (fexp prec emax (Z.div2 (Zdigits2 (Z.pos m) + e + 1))) (Z.div2 e) with
    | Z.pos _ => Z.shiftl (Z.pos m) (e - 2 * Z.min (fexp prec emax (Z.div2 (Zdigits2 (Z.pos m) + e + 1))) (Z.div2 e))
    | 0 => Z.pos m | Z.neg _ => 0 end) as H.
  cbv zeta.
  destruct (Z.sqrtrem _) as [q r]. simpl in H.
  now apply binary_round_aux_number.
Qed.

Local Open Scope float_scope.

(** [math.sqrt] raises exactly on the negative numbers. *)
Lemma math_sqrt_spec (x : float) :
  F.math_sqrt x = if (x <? 0) then Raise ValueError else Ok (PrimFloat.sqrt x).
Proof.
  destruct (x <? 0) eqn:Hneg; [now apply math_sqrt_negative |].
  unfold F.math_sqrt.
  destruct (is_nan x) eqn:Hx; [now rewrite andb_false_r |].
  rewrite is_nan_false; [reflexivity |].
  rewrite sqrt_spec.
  rewrite ltb_spec in Hneg. change (Prim2SF 0) with (S754_zero false) in Hneg.
  rewrite is_nan_spec in Hx.
  destruct (Prim2SF x) as [s | s | | s m e]; try destruct s;
    try discriminate; try (apply SFsqrt_number).
Qed.

Lemma leb_refl (x : float) : is_nan x = false -> (x <=? x) = true.
Proof.
  rewrite is_nan_spec, leb_spec. unfold SFeqb, SFleb.
  now destruct (SFcompare (Prim2SF x) (Prim2SF x)) as [[| |] |].
Qed.

Lemma ltb_leb (x y : float) : (x <? y) = true -> (x <=? y) = true.
Proof.
  rewrite ltb_spec, leb_spec. unfold SFltb, SFleb.
  now destruct (SFcompare (Prim2SF x) (Prim2SF y)) as [[| |] |].
Qed.

Lemma SFcompare_None (f g : spec_float) :
  SFcompare f g = None -> f = S754_nan \/ g = S754_nan.
Proof.
  destruct f as [s | s | | s m e], g as [s' | s' | | s' m' e']; simpl;
    try discriminate; auto.
Qed.

Lemma is_nan_false_inv (x : float) : is_nan x = false -> Prim2SF x <> S754_nan.
Proof. rewrite is_nan_spec. intros H E. now rewrite E in H. Qed.

(** Two numbers are comparable: when x is not below y, y is at most x. *)
Lemma not_ltb_leb (x y : float) :
  is_nan x = false -> is_nan y = false -> (x <? y) = false -> (y <=? x) = true.
Proof.
  intros Hx%is_nan_false_inv Hy%is_nan_false_inv.
  rewrite ltb_spec, leb_spec. unfold SFltb, SFleb.
  rewrite (SFcompare_antisym (Prim2SF x) (Prim2SF y)).
  destruct (SFcompare (Prim2SF x) (Prim2SF y)) as [[| |] |] eqn:E; simpl;
    try discriminate; try reflexivity.
  now destruct (SFcompare_None _ _ E).
Qed.

Lemma py_max_is_max (a b : float) : F.is_max_of (F.py_max a b) a b.
Proof.
  unfold F.is_max_of, F.py_max. destruct (a <? b) eqn:E.
  - split; [now right |]. split; [now apply ltb_asym |]. split; [apply ltb_irrefl |].
    intros _ Hb. split; [now apply ltb_leb | now apply leb_refl].
  - split; [now left |]. split; [apply ltb_irrefl |]. split; [exact E |].
    intros Ha Hb. split; [now apply leb_refl | now apply not_ltb_leb].
Qed.

Lemma py_min_is_min (a b : float) : F.is_min_of (F.py_min a b) a b.
Proof.
  unfold F.is_min_of, F.py_min. destruct (b <? a) eqn:E.
  - split; [now right |]. split; [now apply ltb_asym |]. split; [apply ltb_irrefl |].
    intros _ Hb. split; [now apply ltb_leb | now apply leb_refl].
  - split; [now left |]. split; [apply ltb_irrefl |]. split; [exact E |].
    intros Ha Hb. split; [now apply leb_refl | now apply not_ltb_leb].
Qed.

End FloatFacts.

(** * Facts about series *)

Module SeriesFacts.

Lemma index_apply (f : float -> float) (s : series) : index (apply f s) = index s.
Proof. unfold index, apply. rewrite map_map. reflexivity. Qed.

Lemma values_apply (f : float -> float) (s : series) :
  values (apply f s) = map f (values s).
Proof. unfold values, apply. now rewrite !map_map. Qed.

Lemma index_broadcast (v : float) (idx : list timestamp) :
  index (broadcast v idx) = idx.
Proof. unfold index, broadcast. rewrite map_map. apply map_id. Qed.

Lemma index_resolve (m : Interpolate) (idx : list timestamp) (s : series) :
  index (Datetime.resolve m idx s) = idx.
Proof. unfold index, Datetime.resolve. rewrite map_map. apply map_id. Qed.

(** Strictly ascending labels pass the [is_monotonic_increasing] check. *)
Lemma strictly_ascending_monotonic (idx : list timestamp) :
  strictly_ascending idx = true -> is_monotonic_increasing idx = true.
Proof.
  induction idx as [| t [| u rest] IH]; simpl; auto.
  intros [Htu Hrest]%andb_prop.
  apply andb_true_intro; split.
  - apply Z.leb_le. apply Z.ltb_lt in Htu. lia.
  - now apply IH.
Qed.

(** [is_monotonic_increasing] fails exactly on an index with a descent. *)
Lemma not_monotonic_iff_descent (idx : list timestamp) :
  is_monotonic_increasing idx = false <-> has_descent idx.
Proof.
  induction idx as [| t [| u rest] IH].
  - split; [discriminate | intros (i & t & u & H & _); now destruct i].
  - split; [discriminate | intros (i & t' & u & _ & H & _); now destruct i as [| []]].
  - change (is_monotonic_increasing (t :: u :: rest))
      with ((t <=? u) && is_monotonic_increasing (u :: rest)).
    rewrite andb_false_iff, IH. split.
    + intros [H | (i & t' & u' & H1 & H2 & H3)].
      * exists 0%nat, t, u. apply Z.leb_gt in H. now repeat split.
      * now exists (S i), t', u'.
    + intros ([| i] & t' & u' & H1 & H2 & H3).
      * left. injection H1 as <-. injection H2 as <-. now apply Z.leb_gt.
      * right. now exists i, t', u'.
Qed.

(** The labels of a row-by-row combination do not depend on the operator. *)
Lemma index_zip_with_op (op op' : float -> float -> float) (x y : series) :
  index (zip_with op x y) = index (zip_with op' x y).
Proof.
  revert y; induction x as [| [t a] x IH]; intros [| [u b] y]; simpl; auto.
  now rewrite (IH y).
Qed.

Lemma index_zip_with (op : float -> float -> float) (x y : series) :
  index x = index y -> index (zip_with op x y) = index x.
Proof.
  revert y; induction x as [| [t a] x IH]; intros [| [u b] y]; simpl;
    try discriminate; auto.
  intros [= _ H]. now rewrite (IH y H).
Qed.

Lemma nth_error_zip_with (op : float -> float -> float) (x y : series)
  (i : nat) (t u : timestamp) (a b : float) :
  nth_error x i = Some (t, a) -> nth_error y i = Some (u, b) ->
  nth_error (zip_with op x y) i = Some (t, op a b).
Proof.
  revert x y; induction i as [| i IH]; intros [| [t' a'] x] [| [u' b'] y];
    simpl; try discriminate.
  - now intros [= -> ->] [= _ ->].
  - apply IH.
Qed.

Lemma zip_with_broadcast (op : float -> float -> float) (x : series) (b : float) :
  zip_with op x (broadcast b (index x)) = apply (fun a => op a b) x.
Proof. induction x as [| [t a] x IH]; simpl; [reflexivity | now rewrite IH]. Qed.

Lemma flex_op_aligned (op : float -> float -> float) (x y : series) :
  index x = index y -> flex_op op x y = zip_with op x y.
Proof.
  intros H. unfold flex_op.
  destruct (list_eq_dec Z.eq_dec (index x) (index y)); [reflexivity | contradiction].
Qed.

Lemma index_flex_op (op op' : float -> float -> float) (x y : series) :
  index (flex_op op x y) = index (flex_op op' x y).
Proof.
  unfold flex_op.
  destruct (list_eq_dec Z.eq_dec (index x) (index y)); apply index_zip_with_op.
Qed.

Lemma index_series_method (op op' : float -> float -> float) (x y : operand) :
  result_map index (series_method op x y) = result_map index (series_method op' x y).
Proof.
  destruct x as [a | xs], y as [b | ys]; simpl; try reflexivity.
  - now rewrite !index_apply.
  - now rewrite (index_flex_op op op').
Qed.

(** What [align] returns for two well-formed series. *)
Lemma align_series (a b : series) (m : Interpolate) :
  strictly_ascending (index a) = true -> strictly_ascending (index b) = true ->
  Datetime.align (Series a) (Series b) m =
    Ok (Series (Datetime.resolve m (Datetime.joined_index m (index a) (index b)) a),
        Series (Datetime.resolve m (Datetime.joined_index m (index a) (index b)) b)).
Proof. intros Ha Hb. unfold Datetime.align. now rewrite Ha, Hb. Qed.

Lemma same_series_apply (f : float -> float) (x : series) :
  (forall v, In v (values x) -> F.same_value (f v) v = true) ->
  same_series (apply f x) x = true.
Proof.
  induction x as [| [t v] x IH]; simpl; [reflexivity |].
  intros Hf. rewrite Z.eqb_refl, Hf, IH; auto.
Qed.

Lemma Forall2_map_r {A B : Type} (R : A -> B -> Prop) (f : A -> B) (l : list A) :
  (forall a, R a (f a)) -> Forall2 R l (map f l).
Proof. intros H. induction l; simpl; constructor; auto. Qed.

End SeriesFacts.

(** * Facts about the alignment engine *)

Module AlignFacts.

Lemma ascending_iff_sorted (l : list timestamp) :
  strictly_ascending l = true <-> StronglySorted Z.lt l.
Proof.
  split.
  - intros H. apply Sorted_StronglySorted; [intros x y z; apply Z.lt_trans |].
    induction l as [| t [| u rest] IH]; [repeat constructor .. |].
    change (((t <? u) && strictly_ascending (u :: rest)) = true) in H.
    apply andb_prop in H as [Htu Hrest].
    constructor; [now apply IH | constructor; now apply Z.ltb_lt].
  - intros H%StronglySorted_Sorted.
    induction l as [| t [| u rest] IH]; try reflexivity.
    inversion H as [| ? ? Hs Hh]; subst. inversion Hh; subst.
    change (((t <? u) && strictly_ascending (u :: rest)) = true).
    apply andb_true_intro. split; [now apply Z.ltb_lt | now apply IH].
Qed.

Lemma insert_label_In (t x : timestamp) (l : list timestamp) :
  In x (insert_label t l) <-> x = t \/ In x l.
Proof.
  induction l as [| u rest IH]; simpl.
  - intuition.
  - destruct (t <? u) eqn:E1; [simpl; intuition |].
    destruct (t =? u) eqn:E2.
    + apply Z.eqb_eq in E2. subst. simpl. intuition.
    + simpl. rewrite IH. intuition.
Qed.

Lemma insert_label_sorted (t : timestamp) (l : list timestamp) :
  StronglySorted Z.lt l -> StronglySorted Z.lt (insert_label t l).
Proof.
  induction 1 as [| u rest Hs IH Hall]; simpl.
  - repeat constructor.
  - destruct (t <? u) eqn:E1.
    + apply Z.ltb_lt in E1. constructor; [now constructor |].
      constructor; [exact E1 |].
      eapply Forall_impl; [| exact Hall]. intros; lia.
    + destruct (t =? u) eqn:E2; [now constructor |].
      apply Z.ltb_ge in E1. apply Z.eqb_neq in E2.
      constructor; [exact IH |].
      apply Forall_forall. intros x [-> | Hx]%insert_label_In; [lia |].
      rewrite Forall_forall in Hall. now apply Hall.
Qed.

Lemma union_index_In (i j : list timestamp) (t : timestamp) :
  In t (union_index i j) <-> In t i \/ In t j.
Proof.
  unfold union_index. induction j as [| u j IH]; simpl; [intuition |].
  rewrite insert_label_In, IH. intuition.
Qed.

Lemma union_index_ascending (i j : list timestamp) :
  strictly_ascending i = true -> strictly_ascending (union_index i j) = true.
Proof.
  rewrite !ascending_iff_sorted. intros H. unfold union_index.
  induction j as [| u j IH]; simpl; [exact H | now apply insert_label_sorted].
Qed.

Lemma intersect_index_In (i j : list timestamp) (t : timestamp) :
  In t (intersect_index i j) <-> In t i /\ In t j.
Proof.
  unfold intersect_index. rewrite filter_In, existsb_exists. split.
  - intros [Hi (x & Hx & ->%Z.eqb_eq)]. now split.
  - intros [Hi Hj]. split; [exact Hi |]. exists t. split; [exact Hj | apply Z.eqb_refl].
Qed.

Lemma intersect_index_ascending (i j : list timestamp) :
  strictly_ascending i = true -> strictly_ascending (intersect_index i j) = true.
Proof.
  rewrite !ascending_iff_sorted. unfold intersect_index.
  induction 1 as [| u rest Hs IH Hall]; simpl; [constructor |].
  destruct (existsb (Z.eqb u) j); [| exact IH].
  constructor; [exact IH |].
  apply Forall_forall. intros x [Hx _]%filter_In.
  rewrite Forall_forall in Hall. now apply Hall.
Qed.

Lemma lookup_resolve (m : Interpolate) (idx : list timestamp) (s : series)
  (t : timestamp) :
  In t idx -> lookup t (Datetime.resolve m idx s) = Some (Datetime.value_at m s t).
Proof.
  unfold Datetime.resolve. induction idx as [| u idx IH]; simpl; [contradiction |].
  destruct (u =? t) eqn:E.
  - apply Z.eqb_eq in E. now subst.
  - apply Z.eqb_neq in E. intros [H | H]; [contradiction | now apply IH].
Qed.

Lemma joined_index_In (m : Interpolate) (i j : list timestamp) (t : timestamp) :
  In t (Datetime.joined_index m i j) <->
  match m with
  | INTERSECT => In t i /\ In t j
  | NAN | ZERO | STEP => In t i \/ In t j
  end.
Proof.
  destruct m; simpl; first [apply intersect_index_In | apply union_index_In].
Qed.

Lemma joined_index_ascending (m : Interpolate) (i j : list timestamp) :
  strictly_ascending i = true ->
  strictly_ascending (Datetime.joined_index m i j) = true.
Proof.
  destruct m; simpl;
    first [apply intersect_index_ascending | apply union_index_ascending].
Qed.

(** [asof] finds nothing exactly when every observation is later than [t]. *)
Lemma asof_None (t : timestamp) (s : series) :
  asof t s = None <-> Forall (fun row => t < fst row) s.
Proof.
  induction s as [| [u v] s IH]; simpl.
  - split; [constructor | reflexivity].
  - destruct (asof t s) as [w |].
    + split; [discriminate |]. intros H. inversion H; subst.
      now apply IH in H3.
    + destruct (u <=? t) eqn:E.
      * split; [discriminate |]. intros H. inversion H; subst.
        apply Z.leb_le in E. simpl in *. lia.
      * apply Z.leb_gt in E. split; [| reflexivity].
        intros _. constructor; [exact E | now apply IH].
Qed.

(** On a well-formed series, what [asof] finds is the latest observation at
    or before [t]. *)
Lemma asof_Some (t : timestamp) (s : series) (v : float) :
  strictly_ascending (index s) = true ->
  asof t s = Some v ->
  exists u : timestamp,
    In (u, v) s /\ u <= t /\
    forall u' v', In (u', v') s -> u' <= t -> u' <= u.
Proof.
  rewrite ascending_iff_sorted.
  induction s as [| [u0 v0] s IH]; simpl; [discriminate |].
  intros Hs. inversion Hs as [| ? ? Hs' Hall]; subst.
  destruct (asof t s) as [w |] eqn:E.
  - intros [= ->]. destruct (IH Hs' eq_refl) as (u & Hin & Hle & Hmax).
    exists u. split; [now right |]. split; [exact Hle |].
    intros u' v' [[= <- <-] | Hin'] Hu'.
    + rewrite Forall_forall in Hall.
      assert (u0 < u) by (apply Hall; change u with (fst (u, v)); now apply in_map).
      lia.
    + now apply (Hmax u' v').
  - destruct (u0 <=? t) eqn:E0; [| discriminate].
    intros [= ->]. apply Z.leb_le in E0.
    exists u0. split; [now left |]. split; [exact E0 |].
    intros u' v' [[= <- <-] | Hin'] Hu'; [lia |].
    apply asof_None in E. rewrite Forall_forall in E.
    specialize (E (u', v') Hin'). simpl in E. lia.
Qed.

(** The contract of the alignment engine: two well-formed series come back
    as two series over one strictly ascending index, which holds the labels
    of both inputs under INTERSECT and of either input otherwise; a side
    keeps the value it has at a label. *)
Lemma align_contract (a b : series) (m : Interpolate) :
  strictly_ascending (index a) = true -> strictly_ascending (index b) = true ->
  exists xa ya : series,
    Datetime.align (Series a) (Series b) m = Ok (Series xa, Series ya) /\
    index xa = index ya /\
    strictly_ascending (index xa) = true /\
    (forall t, In t (index xa) <->
               match m with
               | INTERSECT => In t (index a) /\ In t (index b)
               | NAN | ZERO | STEP => In t (index a) \/ In t (index b)
               end) /\
    (forall t v, In t (index xa) -> lookup t a = Some v -> lookup t xa = Some v) /\
    (forall t v, In t (index ya) -> lookup t b = Some v -> lookup t ya = Some v).
Proof.
  intros Ha Hb. do 2 eexists.
  split; [now apply SeriesFacts.align_series |].
  rewrite !SeriesFacts.index_resolve.
  split; [reflexivity |].
  split; [now apply joined_index_ascending |].
  split; [intros t; apply joined_index_In |].
  split; intros t v Ht Hv; rewrite (lookup_resolve _ _ _ _ Ht);
    unfold Datetime.value_at; now rewrite Hv.
Qed.

End AlignFacts.

(** * The binary operators *)

Import Scenario.




(** C2: whatever alignment engine the operators are linked with, and for all
    operands and every method, [add], [subtract], [multiply] and [divide]
    either all raise the same exception or all return series carrying one
    and the same index. *)
Theorem operators_share_index
  (align : operand -> operand -> Interpolate -> result (operand * operand))
  (x y : operand) (m : Interpolate) :
  result_index (Algebra.subtract align x y m) = result_index (Algebra.add align x y m) /\
  result_index (Algebra.multiply align x y m) = result_index (Algebra.add align x y m) /\
  result_index (Algebra.divide align x y m) = result_index (Algebra.add align x y m).
Proof.
  unfold result_index, Algebra.subtract, Algebra.multiply, Algebra.divide, Algebra.add.
  destruct (align x y m) as [[xa ya] | e]; simpl; [| repeat split; reflexivity].
  repeat split; apply SeriesFacts.index_series_method.
Qed.

(** With the alignment engine of the specification, the shared index of two
    well-formed series is the join the method asks for. *)
Lemma operators_index_is_join (a b : series) (m : Interpolate) :
  strictly_ascending (index a) = true -> strictly_ascending (index b) = true ->
  result_index (Algebra.add Datetime.align (Series a) (Series b) m)
    = Ok (Datetime.joined_index m (index a) (index b)).
Proof.
  intros Ha Hb. unfold result_index, Algebra.add.
  rewrite (SeriesFacts.align_series a b m Ha Hb). simpl.
  rewrite SeriesFacts.flex_op_aligned, SeriesFacts.index_zip_with;
    rewrite !SeriesFacts.index_resolve; reflexivity.
Qed.

(** C6: for every timeseries a (labels strictly ascending), [add (a, 0, ZERO)]
    returns a series with the labels of a whose values agree with those of a
    row by row. *)
Theorem add_zero_is_identity (a : series) :
  strictly_ascending (index a) = true ->
  exists r : series,
    Algebra.add Datetime.align (Series a) (Scalar 0%float) ZERO = Ok r /\
    index r = index a /\
    same_series r a = true.
Proof.
  intros Ha. exists (apply (fun v => v + 0)%float a).
  split; [| split].
  - unfold Algebra.add, Datetime.align. rewrite Ha. simpl.
    rewrite SeriesFacts.flex_op_aligned
      by (now rewrite SeriesFacts.index_broadcast).
    now rewrite SeriesFacts.zip_with_broadcast.
  - apply SeriesFacts.index_apply.
  - apply SeriesFacts.same_series_apply. intros v _. apply FloatFacts.add_zero_same.
Qed.

Lemma add_zero_is_identity_example :
  strictly_ascending (index Scenario.a) = true /\
  exists r : series,
    Algebra.add Datetime.align (Series Scenario.a) (Scalar 0%float) ZERO = Ok r /\
    index r = index Scenario.a /\
    same_series r Scenario.a = true.
Proof.
  split; [reflexivity | apply (add_zero_is_identity Scenario.a); reflexivity].
Defined.

(** C8: when the aligned pair has a zero denominator at some row, [divide]
    raises nothing and returns at that row the binary64 quotient, which is an
    infinity or not-a-number; in particular 10 / 0 over one shared label is
    [infinity]. *)
Theorem divide_by_zero_is_not_an_error
  (align : operand -> operand -> Interpolate -> result (operand * operand))
  (x y : operand) (m : Interpolate) (xa ya : series) :
  align x y m = Ok (Series xa, Series ya) ->
  index xa = index ya ->
  exists r : series,
    Algebra.divide align x y m = Ok r /\
    index r = index ya /\
    (forall (i : nat) (t : timestamp) (n d : float),
        nth_error xa i = Some (t, n) -> nth_error ya i = Some (t, d) ->
        is_zero d = true ->
        nth_error r i = Some (t, (n / d)%float) /\
        is_infinity (n / d) || is_nan (n / d) = true) /\
    (xa = range_series [10%float] -> ya = range_series [0%float] ->
     r = range_series [infinity]).
Proof.
  intros Halign Hidx. exists (zip_with PrimFloat.div xa ya).
  split; [| split; [| split]].
  - unfold Algebra.divide. rewrite Halign. simpl.
    now rewrite SeriesFacts.flex_op_aligned.
  - rewrite <- Hidx. now apply SeriesFacts.index_zip_with.
  - intros i t n d Hn Hd Hz. split.
    + now apply (SeriesFacts.nth_error_zip_with _ xa ya i t t n d).
    + now apply FloatFacts.div_by_zero.
  - intros -> ->. reflexivity.
Qed.

Lemma divide_ten_by_zero :
  Algebra.divide Datetime.align
    (Series (range_series [10%float])) (Series (range_series [0%float])) INTERSECT
  = Ok (range_series [infinity]).
Proof.
  destruct (divide_by_zero_is_not_an_error Datetime.align
              (Series (range_series [10%float])) (Series (range_series [0%float]))
              INTERSECT (range_series [10%float]) (range_series [0%float])
              eq_refl eq_refl) as (r & Hr & _ & _ & Hscenario).
  rewrite Hr. f_equal. now apply Hscenario.
Defined.

(** * The unary operators *)

(** C3, as the specification words it, does not hold: a series with two rows
    under one label is not strictly ascending, yet [floor] and [ceil] accept
    it; and on a descending index they raise [AssertionError], not
    [ValueConstraintError]. *)
Lemma floor_ceil_accept_repeated_labels :
  strictly_ascending (index repeated) = false /\
  Algebra.floor repeated 0 = Ok [(jan01, 0); (jan01, 5)]%float /\
  Algebra.ceil repeated 0 = Ok [(jan01, -5); (jan01, 0)]%float /\
  strictly_ascending (index descending) = false /\
  Algebra.floor descending 0 = Raise AssertionError /\
  Algebra.ceil descending 0 = Raise AssertionError.
Proof. repeat split; reflexivity. Qed.

(** C3 (amended): for every series whose index has a descent (some label
    smaller than the one before it, which is when [is_monotonic_increasing]
    is false) and every value v, [floor] and [ceil] raise [AssertionError]. *)
Theorem floor_ceil_reject_descent (x : series) (v : float) :
  has_descent (index x) ->
  Algebra.floor x v = Raise AssertionError /\
  Algebra.ceil x v = Raise AssertionError.
Proof.
  intros H%SeriesFacts.not_monotonic_iff_descent.
  unfold Algebra.floor, Algebra.ceil. now rewrite H.
Qed.

Lemma floor_ceil_reject_descent_example :
  has_descent (index descending) /\
  Algebra.floor descending 0 = Raise AssertionError /\
  Algebra.ceil descending 0 = Raise AssertionError.
Proof.
  assert (H : has_descent (index descending)).
  { exists 0%nat, jan02, jan01. repeat split. }
  split; [exact H | exact (floor_ceil_reject_descent descending 0 H)].
Defined.

(** An index that passes the check is accepted, strictly ascending or not. *)
Lemma floor_ceil_accept_monotonic (x : series) (v : float) :
  is_monotonic_increasing (index x) = true ->
  Algebra.floor x v = Ok (apply (fun y => F.py_max y v) x) /\
  Algebra.ceil x v = Ok (apply (fun y => F.py_min y v) x).
Proof. intros H. unfold Algebra.floor, Algebra.ceil. now rewrite H. Qed.

(** C4: for every series x with strictly ascending labels and every v,
    [floor (x, v)] returns a series with the index of x whose values are
    [max (X_t, v)] row by row: each is one of X_t and v, and neither X_t nor v
    exceeds it.  In particular [floor (series ([-5, 0, 5]), 0)] is
    [[0, 0, 5]]. *)
Theorem floor_is_elementwise_max :
  (forall (x : series) (v : float),
      strictly_ascending (index x) = true ->
      exists r : series,
        Algebra.floor x v = Ok r /\
        index r = index x /\
        values r = map (fun X => F.py_max X v) (values x) /\
        Forall2 (fun X R => F.is_max_of R X v) (values x) (values r)) /\
  Algebra.floor (range_series [-5; 0; 5]%float) 0
    = Ok (range_series [0; 0; 5]%float).
Proof.
  split; [| reflexivity].
  intros x v Hx%SeriesFacts.strictly_ascending_monotonic.
  destruct (floor_ceil_accept_monotonic x v Hx) as [-> _].
  eexists; split; [reflexivity |].
  rewrite SeriesFacts.index_apply, SeriesFacts.values_apply.
  repeat split.
  apply SeriesFacts.Forall2_map_r. intros X. apply FloatFacts.py_max_is_max.
Qed.

Lemma floor_is_elementwise_max_example :
  exists r : series,
    Algebra.floor (range_series [-5; 0; 5]%float) 0 = Ok r /\
    index r = [0; 1; 2] /\
    values r = [0; 0; 5]%float /\
    Forall2 (fun X R => F.is_max_of R X 0) [-5; 0; 5]%float (values r).
Proof.
  exact (proj1 floor_is_elementwise_max (range_series [-5; 0; 5]%float) 0%float
           eq_refl).
Defined.

(** C5: for every series x with strictly ascending labels and every v,
    [ceil (x, v)] returns a series with the index of x whose values are
    [min (X_t, v)] row by row: each is one of X_t and v, and it exceeds
    neither. *)
Theorem ceil_is_elementwise_min (x : series) (v : float) :
  strictly_ascending (index x) = true ->
  exists r : series,
    Algebra.ceil x v = Ok r /\
    index r = index x /\
    values r = map (fun X => F.py_min X v) (values x) /\
    Forall2 (fun X R => F.is_min_of R X v) (values x) (values r).
Proof.
  intros Hx%SeriesFacts.strictly_ascending_monotonic.
  destruct (floor_ceil_accept_monotonic x v Hx) as [_ ->].
  eexists; split; [reflexivity |].
  rewrite SeriesFacts.index_apply, SeriesFacts.values_apply.
  repeat split.
  apply SeriesFacts.Forall2_map_r. intros X. apply FloatFacts.py_min_is_min.
Qed.

Lemma ceil_is_elementwise_min_example :
  strictly_ascending (index (range_series [-5; 0; 5]%float)) = true /\
  exists r : series,
    Algebra.ceil (range_series [-5; 0; 5]%float) 0 = Ok r /\
    index r = [0; 1; 2] /\
    values r = [-5; 0; 0]%float /\
    Forall2 (fun X R => F.is_min_of R X 0) [-5; 0; 5]%float (values r).
Proof.
  split; [reflexivity |].
  exact (ceil_is_elementwise_min (range_series [-5; 0; 5]%float) 0%float eq_refl).
Defined.

(** C7, as the specification words it, does not hold for scalars: the square
    root of the number -1 is not a NaN result but a [ValueError]. *)
Lemma sqrt_negative_scalar_raises :
  (-1 <? 0)%float = true /\
  Algebra.sqrt (Scalar (-1)%float) = Raise ValueError /\
  Algebra.sqrt (Series [(jan01, (-1)%float)]) = Ok (Series [(jan01, nan)]).
Proof. repeat split; reflexivity. Qed.

(** C7 (amended): [sqrt] takes a series or a scalar.  A series comes back as
    a series with the same index and the square root of every value, a
    negative value giving NaN and no error.  A scalar comes back as the
    scalar square root, except that a negative scalar raises [ValueError]. *)
Theorem sqrt_keeps_shape :
  (forall s : series,
      exists r : series,
        Algebra.sqrt (Series s) = Ok (Series r) /\
        index r = index s /\
        values r = map PrimFloat.sqrt (values s) /\
        (forall (i : nat) (v : float),
            nth_error (values s) i = Some v -> (v <? 0)%float = true ->
            option_map is_nan (nth_error (values r) i) = Some true)) /\
  (forall v : float,
      Algebra.sqrt (Scalar v)
      = if (v <? 0)%float then Raise ValueError
        else Ok (Scalar (PrimFloat.sqrt v))).
Proof.
  split.
  - intros s. exists (apply PrimFloat.sqrt s).
    rewrite SeriesFacts.index_apply, SeriesFacts.values_apply.
    repeat split.
    intros i v Hv Hneg. rewrite nth_error_map, Hv. simpl.
    now destruct (FloatFacts.sqrt_negative v Hneg) as [-> _].
  - intros v. unfold Algebra.sqrt. rewrite FloatFacts.math_sqrt_spec.
    now destruct (v <? 0)%float.
Qed.

Lemma sqrt_keeps_shape_example :
  exists r : series,
    Algebra.sqrt (Series [(jan01, (-1)%float); (jan02, 4%float)]) = Ok (Series r) /\
    index r = [jan01; jan02] /\
    values r = [nan; 2%float] /\
    option_map is_nan (nth_error (values r) 0) = Some true.
Proof.
  destruct (proj1 sqrt_keeps_shape [(jan01, (-1)%float); (jan02, 4%float)])
    as (r & Hr & Hi & Hv & Hneg).
  exists r. split; [exact Hr |]. split; [exact Hi |]. split; [exact Hv |].
  exact (Hneg 0%nat (-1)%float eq_refl eq_refl).
Defined.

(** [power] works value by value through the pow kernel and keeps the
    index; the default exponent is 1. *)
Lemma power_keeps_index (np_power : float -> float -> float) (x : series) :
  index (Algebra.power np_power x Algebra.default_exponent) = index x /\
  values (Algebra.power np_power x Algebra.default_exponent)
    = map (fun v => np_power v 1%float) (values x).
Proof.
  unfold Algebra.power, Algebra.default_exponent.
  now rewrite SeriesFacts.index_apply, SeriesFacts.values_apply.
Qed.

(** [exp] and [log] work value by value and keep the index, whatever the
    kernels. *)
Lemma exp_log_keep_index (np_exp np_log : float -> float) (x : series) :
  index (Algebra.exp np_exp (Algebra.log np_log x)) = index x /\
  values (Algebra.exp np_exp (Algebra.log np_log x))
    = map (fun v => np_exp (np_log v)) (values x).
Proof.
  unfold Algebra.exp, Algebra.log.
  rewrite !SeriesFacts.index_apply, !SeriesFacts.values_apply, map_map.
  now split.
Qed.

(** * Further facts about binary64 arithmetic *)

Module FloatLaws.

Import FloatFacts.

Open Scope float_scope.

Lemma SFcompare_Some (f g : spec_float) (c : comparison) :
  SFcompare f g = Some c -> f <> S754_nan /\ g <> S754_nan.
Proof.
  destruct f as [s | s | | s m e], g as [s' | s' | | s' m' e']; simpl;
    try discriminate; intros _; split; discriminate.
Qed.

Lemma is_nan_true_inv (x : float) : is_nan x = true -> Prim2SF x = S754_nan.
Proof.
  rewrite is_nan_spec. unfold SFeqb.
  destruct (Prim2SF x) as [s | s | | s m e] eqn:E; try reflexivity;
    rewrite SFcompare_refl; discriminate.
Qed.

Lemma is_nan_true (x : float) : Prim2SF x = S754_nan -> is_nan x = true.
Proof. intros E. rewrite is_nan_spec, E. reflexivity. Qed.

Lemma leb_numbers (x y : float) :
  (x <=? y) = true -> is_nan x = false /\ is_nan y = false.
Proof.
  rewrite leb_spec. unfold SFleb.
  destruct (SFcompare (Prim2SF x) (Prim2SF y)) as [c |] eqn:E; [| discriminate].
  intros _. destruct (SFcompare_Some _ _ _ E). split; now apply is_nan_false.
Qed.

Lemma ltb_nan_l (x y : float) : is_nan x = true -> (x <? y) = false.
Proof.
  intros E%is_nan_true_inv. rewrite ltb_spec, E. reflexivity.
Qed.

Lemma ltb_nan_r (x y : float) : is_nan y = true -> (x <? y) = false.
Proof.
  intros E%is_nan_true_inv. rewrite ltb_spec, E. unfold SFltb.
  now destruct (Prim2SF x).
Qed.

(** A missing operand makes the result of each arithmetic operation missing. *)
Lemma nan_propagates (x y : float) :
  is_nan x = true \/ is_nan y = true ->
  is_nan (x + y) = true /\ is_nan (x - y) = true /\
  is_nan (x * y) = true /\ is_nan (x / y) = true.
Proof.
  intros [E%is_nan_true_inv | E%is_nan_true_inv]; repeat split; apply is_nan_true;
    rewrite ?add_spec, ?sub_spec, ?mul_spec, ?div_spec, E;
    try reflexivity; now destruct (Prim2SF x).
Qed.

Lemma SFadd_comm (f g : spec_float) : SF64add f g = SF64add g f.
Proof.
  destruct f as [s | s | | s m e], g as [s' | s' | | s' m' e']; simpl;
    try destruct s; try destruct s'; try reflexivity;
    unfold SF64add, SFadd; now rewrite Z.min_comm, Z.add_comm.
Qed.

Lemma SFmul_comm (f g : spec_float) : SF64mul f g = SF64mul g f.
Proof.
  destruct f as [s | s | | s m e], g as [s' | s' | | s' m' e']; simpl;
    try destruct s; try destruct s'; try reflexivity;
    unfold SF64mul, SFmul; simpl; now rewrite Pos.mul_comm, Z.add_comm.
Qed.

Lemma float_add_comm (x y : float) : x + y = y + x.
Proof. apply Prim2SF_inj. rewrite !add_spec. apply SFadd_comm. Qed.

Lemma float_mul_comm (x y : float) : x * y = y * x.
Proof. apply Prim2SF_inj. rewrite !mul_spec. apply SFmul_comm. Qed.

Lemma is_finite_spec (x : float) :
  is_finite x = true ->
  (exists s, Prim2SF x = S754_zero s) \/ (exists s m e, Prim2SF x = S754_finite s m e).
Proof.
  unfold is_finite, is_infinity. rewrite is_nan_spec, eqb_spec, abs_spec.
  change (Prim2SF infinity) with (S754_infinity false).
  destruct (Prim2SF x) as [s | s | | s m e]; eauto;
    unfold SFeqb; simpl; try destruct s; discriminate.
Qed.

(** A finite number minus itself is plus zero. *)
Lemma float_sub_diag (x : float) : is_finite x = true -> x - x = 0.
Proof.
  intros H. apply Prim2SF_inj. rewrite sub_spec.
  change (Prim2SF 0) with (S754_zero false).
  destruct (is_finite_spec x H) as [[s ->] | (s & m & e & ->)].
  - now destruct s.
  - unfold SF64sub, SFsub. now rewrite Z.sub_diag.
Qed.

Lemma float_abs_idempotent (x : float) : abs (abs x) = abs x.
Proof. apply Prim2SF_inj. rewrite !abs_spec. now destruct (Prim2SF x). Qed.

Lemma abs_not_negative (x : float) : (abs x <? 0) = false.
Proof.
  rewrite ltb_spec, abs_spec. change (Prim2SF 0) with (S754_zero false).
  now destruct (Prim2SF x).
Qed.

(** [abs] is the value itself, or its opposite for a negative value. *)
Lemma abs_cases (x : float) :
  F.same_value (abs x) (if x <? 0 then - x else x) = true.
Proof.
  rewrite ltb_spec. change (Prim2SF 0) with (S754_zero false).
  destruct (Prim2SF x) as [s | s | | s m e] eqn:E; try destruct s;
    unfold SFltb; simpl;
    try (replace (abs x) with x;
         [apply same_value_refl | apply Prim2SF_inj; now rewrite abs_spec, E]);
    try (replace (abs x) with (- x);
         [apply same_value_refl | apply Prim2SF_inj; now rewrite abs_spec, opp_spec, E]).
  unfold F.same_value. rewrite eqb_spec, abs_spec, E. reflexivity.
Qed.

(** The square root of an absolute value is missing only for a missing value. *)
Lemma sqrt_abs_nan (x : float) : is_nan (PrimFloat.sqrt (abs x)) = is_nan x.
Proof.
  rewrite !is_nan_spec, sqrt_spec, abs_spec.
  destruct (Prim2SF x) as [s | s | | s m e]; try destruct s; try reflexivity;
    unfold SFeqb; rewrite !SFcompare_refl;
    first [reflexivity | discriminate | apply SFsqrt_number].
Qed.

Lemma py_max_idempotent (a v : float) : F.py_max (F.py_max a v) v = F.py_max a v.
Proof.
  unfold F.py_max. destruct (a <? v) eqn:E; [now rewrite ltb_irrefl | now rewrite E].
Qed.

Lemma py_min_idempotent (a v : float) : F.py_min (F.py_min a v) v = F.py_min a v.
Proof.
  unfold F.py_min. destruct (v <? a) eqn:E; [now rewrite ltb_irrefl | now rewrite E].
Qed.

(** Clamping a number between two ordered bounds lands between them. *)
Lemma clamp_bounds (a lo hi : float) :
  is_nan a = false -> (lo <=? hi) = true ->
  (lo <=? F.py_min (F.py_max a lo) hi) = true /\
  (F.py_min (F.py_max a lo) hi <=? hi) = true.
Proof.
  intros Ha Hle. destruct (leb_numbers _ _ Hle) as [Hlo Hhi].
  destruct (py_max_is_max a lo) as (Hone & _ & _ & Hub).
  destruct (Hub Ha Hlo) as [_ Hlo_m].
  assert (Hm : is_nan (F.py_max a lo) = false) by (destruct Hone as [-> | ->]; assumption).
  unfold F.py_min. destruct (hi <? F.py_max a lo) eqn:E.
  - split; [exact Hle | now apply leb_refl].
  - split; [exact Hlo_m | now apply not_ltb_leb].
Qed.

Lemma binary_round_aux_not_negative (mx ex : Z) (lx : location) :
  SFltb (binary_round_aux prec emax false mx ex lx) (S754_zero false) = false.
Proof.
  unfold binary_round_aux.
  destruct (shr_fexp prec emax mx ex lx) as [mrs' e'].
  destruct (shr_fexp prec emax _ e' loc_Exact) as [mrs'' e''].
  destruct (shr_m mrs''); try reflexivity.
  now destruct (Z.leb e'' (emax - prec)%Z).
Qed.

(** A square root is never below zero. *)
Lemma sqrt_not_negative (x : float) : (PrimFloat.sqrt x <? 0) = false.
Proof.
  rewrite ltb_spec, sqrt_spec. change (Prim2SF 0) with (S754_zero false).
  destruct (Prim2SF x) as [s | s | | s m e]; try destruct s; try reflexivity.
  unfold SF64sqrt, SFsqrt.
  destruct (SFsqrt_core_binary prec emax (Z.pos m) e) as [[mz ez] lz].
  apply binary_round_aux_not_negative.
Qed.

End FloatLaws.

(** * Further facts about series and the operators *)

Module OperatorFacts.

Lemma apply_apply (f g : float -> float) (s : series) :
  apply g (apply f s) = apply (fun v => g (f v)) s.
Proof. unfold apply. rewrite map_map. reflexivity. Qed.

Lemma apply_ext_in (f g : float -> float) (s : series) :
  (forall v, In v (values s) -> f v = g v) -> apply f s = apply g s.
Proof.
  intros H. unfold apply. apply map_ext_in. intros [t v] Hin. simpl.
  rewrite H; [reflexivity |]. change v with (snd (t, v)). now apply in_map.
Qed.

Lemma apply_id (s : series) : apply (fun v => v) s = s.
Proof. unfold apply. rewrite <- (map_id s) at 2. apply map_ext. now intros []. Qed.

Lemma zip_with_comm (op : float -> float -> float) (x y : series) :
  index x = index y -> (forall a b, op a b = op b a) ->
  zip_with op x y = zip_with op y x.
Proof.
  intros Hidx Hop. revert y Hidx.
  induction x as [| [t a] x IH]; intros [| [u b] y]; simpl; try discriminate; auto.
  intros [= -> H]. now rewrite Hop, (IH y H).
Qed.

(** What an operator body computes once the engine has returned two series
    over one index. *)
Lemma binop_aligned
  (align : operand -> operand -> Interpolate -> result (operand * operand))
  (op : float -> float -> float) (x y : operand) (m : Interpolate)
  (xa ya : series) :
  align x y m = Ok (Series xa, Series ya) -> index xa = index ya ->
  ('(x_align, y_align) <- align x y m ;; series_method op x_align y_align)
  = Ok (zip_with op xa ya).
Proof.
  intros -> Hidx. simpl. now rewrite SeriesFacts.flex_op_aligned.
Qed.

Lemma nth_error_zip_with_nan (op : float -> float -> float) (x y : series)
  (i : nat) (t u : timestamp) (a b : float) :
  nth_error x i = Some (t, a) -> nth_error y i = Some (u, b) ->
  is_nan (op a b) = true ->
  option_map (fun row => is_nan (snd row)) (nth_error (zip_with op x y) i) = Some true.
Proof.
  intros Hx Hy Hnan.
  rewrite (SeriesFacts.nth_error_zip_with op x y i t u a b Hx Hy). simpl.
  now rewrite Hnan.
Qed.

Lemma Forall2_values_apply (R : float -> float -> Prop) (f : float -> float)
  (s : series) :
  (forall v, In v (values s) -> R v (f v)) ->
  Forall2 R (values s) (values (apply f s)).
Proof.
  rewrite SeriesFacts.values_apply. induction (values s) as [| v l IH]; simpl;
    constructor; auto with datatypes.
Qed.

End OperatorFacts.

(** * Further properties of the operators *)

(** X1: [abs_] keeps the index, and every value of the result is not
    negative and is the input value, or its opposite when that is negative. *)
Theorem abs_is_elementwise (x : series) :
  index (Algebra.abs_ x) = index x /\
  Forall2 (fun v r => (r <? 0)%float = false /\
                      F.same_value r (if (v <? 0)%float then (- v)%float else v) = true)
          (values x) (values (Algebra.abs_ x)).
Proof.
  unfold Algebra.abs_. split; [apply SeriesFacts.index_apply |].
  apply OperatorFacts.Forall2_values_apply. intros v _.
  split; [apply FloatLaws.abs_not_negative | apply FloatLaws.abs_cases].
Qed.

(** X2: taking [abs_] twice is the same as taking it once. *)
Theorem abs_idempotent (x : series) :
  Algebra.abs_ (Algebra.abs_ x) = Algebra.abs_ x.
Proof.
  unfold Algebra.abs_. rewrite OperatorFacts.apply_apply.
  apply OperatorFacts.apply_ext_in. intros v _. apply FloatLaws.float_abs_idempotent.
Qed.

(** X3: flooring (capping) a second time at the same value changes nothing:
    the second call returns what the first returned, and raises what it
    raised. *)
Theorem floor_ceil_idempotent (x : series) (v : float) :
  ('r <- Algebra.floor x v ;; Algebra.floor r v) = Algebra.floor x v /\
  ('r <- Algebra.ceil x v ;; Algebra.ceil r v) = Algebra.ceil x v.
Proof.
  unfold Algebra.floor, Algebra.ceil.
  destruct (is_monotonic_increasing (index x)) eqn:H; simpl; [| now split].
  rewrite !SeriesFacts.index_apply, H, !OperatorFacts.apply_apply. split; f_equal;
    apply OperatorFacts.apply_ext_in; intros a _;
    [apply FloatLaws.py_max_idempotent | apply FloatLaws.py_min_idempotent].
Qed.

(** X4: [floor] at lo followed by [ceil] at hi, with lo <= hi, clamps: the
    index is kept and every value that is a number ends between lo and hi. *)
Theorem floor_then_ceil_clamps (x : series) (lo hi : float) :
  is_monotonic_increasing (index x) = true ->
  (lo <=? hi)%float = true ->
  exists r : series,
    ('y <- Algebra.floor x lo ;; Algebra.ceil y hi) = Ok r /\
    index r = index x /\
    Forall2 (fun v c => is_nan v = false ->
                        (lo <=? c)%float = true /\ (c <=? hi)%float = true)
            (values x) (values r).
Proof.
  intros Hx Hle. exists (apply (fun v => F.py_min (F.py_max v lo) hi) x).
  split; [| split].
  - unfold Algebra.floor, Algebra.ceil. rewrite Hx. simpl.
    now rewrite SeriesFacts.index_apply, Hx, OperatorFacts.apply_apply.
  - apply SeriesFacts.index_apply.
  - apply OperatorFacts.Forall2_values_apply. intros v _ Hv.
    now apply FloatLaws.clamp_bounds.
Qed.

Lemma floor_then_ceil_clamps_example :
  exists r : series,
    ('y <- Algebra.floor (range_series [-5; 0; 5]%float) (-1)%float ;;
     Algebra.ceil y 1%float) = Ok r /\
    index r = [0; 1; 2] /\
    Forall2 (fun v c => is_nan v = false ->
                        (-1 <=? c)%float = true /\ (c <=? 1)%float = true)
            [-5; 0; 5]%float (values r).
Proof.
  exact (floor_then_ceil_clamps (range_series [-5; 0; 5]%float) (-1)%float 1%float
           eq_refl eq_refl).
Defined.

(** X5: [floor] and [ceil] leave a missing value missing, and a bound that
    is not a number leaves the whole series as it is. *)
Theorem floor_ceil_missing_values (x : series) (v : float) :
  is_monotonic_increasing (index x) = true ->
  exists rf rc : series,
    Algebra.floor x v = Ok rf /\ Algebra.ceil x v = Ok rc /\
    Forall2 (fun a r => is_nan a = true -> r = a) (values x) (values rf) /\
    Forall2 (fun a r => is_nan a = true -> r = a) (values x) (values rc) /\
    (is_nan v = true -> rf = x /\ rc = x).
Proof.
  intros Hx. unfold Algebra.floor, Algebra.ceil. rewrite Hx.
  do 2 eexists. split; [reflexivity |]. split; [reflexivity |].
  split; [| split].
  - apply OperatorFacts.Forall2_values_apply. intros a _ Ha.
    unfold F.py_max. now rewrite FloatLaws.ltb_nan_l.
  - apply OperatorFacts.Forall2_values_apply. intros a _ Ha.
    unfold F.py_min. now rewrite FloatLaws.ltb_nan_r.
  - intros Hv. split; rewrite <- (OperatorFacts.apply_id x) at 2;
      apply OperatorFacts.apply_ext_in; intros a _.
    + unfold F.py_max. now rewrite FloatLaws.ltb_nan_r.
    + unfold F.py_min. now rewrite FloatLaws.ltb_nan_l.
Qed.

Lemma floor_ceil_missing_values_example :
  exists rf rc : series,
    Algebra.floor [(Scenario.jan01, nan); (Scenario.jan02, 2%float)] nan = Ok rf /\
    Algebra.ceil [(Scenario.jan01, nan); (Scenario.jan02, 2%float)] nan = Ok rc /\
    Forall2 (fun a r => is_nan a = true -> r = a) [nan; 2%float] (values rf) /\
    Forall2 (fun a r => is_nan a = true -> r = a) [nan; 2%float] (values rc) /\
    (is_nan nan = true ->
     rf = [(Scenario.jan01, nan); (Scenario.jan02, 2%float)] /\
     rc = [(Scenario.jan01, nan); (Scenario.jan02, 2%float)]).
Proof.
  exact (floor_ceil_missing_values
           [(Scenario.jan01, nan); (Scenario.jan02, 2%float)] nan eq_refl).
Defined.

(** X6: the square root of [abs_ x] raises nothing, keeps the index, and is
    missing exactly where x is missing. *)
Theorem sqrt_of_abs_has_no_new_missing (x : series) :
  exists r : series,
    Algebra.sqrt (Series (Algebra.abs_ x)) = Ok (Series r) /\
    index r = index x /\
    map is_nan (values r) = map is_nan (values x).
Proof.
  eexists. split; [reflexivity |]. unfold Algebra.abs_.
  rewrite !SeriesFacts.index_apply, !SeriesFacts.values_apply, !map_map.
  split; [reflexivity |]. apply map_ext. intros v. apply FloatLaws.sqrt_abs_nan.
Qed.

Section AlignedOperands.

Variable align : operand -> operand -> Interpolate -> result (operand * operand).
Variables (x y : operand) (m : Interpolate) (xa ya : series).
Hypothesis Haligned : align x y m = Ok (Series xa, Series ya).
Hypothesis Hindex : index xa = index ya.

(** X7: once the engine has returned two series over one index, [add],
    [subtract] and [multiply] return a series over that index whose row at
    each label is the sum, difference and product of the two rows there. *)
Theorem operators_are_pointwise :
  exists ra rs rm : series,
    Algebra.add align x y m = Ok ra /\
    Algebra.subtract align x y m = Ok rs /\
    Algebra.multiply align x y m = Ok rm /\
    index ra = index xa /\ index rs = index xa /\ index rm = index xa /\
    forall (i : nat) (t : timestamp) (n d : float),
      nth_error xa i = Some (t, n) -> nth_error ya i = Some (t, d) ->
      nth_error ra i = Some (t, (n + d)%float) /\
      nth_error rs i = Some (t, (n - d)%float) /\
      nth_error rm i = Some (t, (n * d)%float).
Proof.
  exists (zip_with PrimFloat.add xa ya), (zip_with PrimFloat.sub xa ya),
    (zip_with PrimFloat.mul xa ya).
  unfold Algebra.add, Algebra.subtract, Algebra.multiply.
  rewrite !(OperatorFacts.binop_aligned align _ x y m xa ya Haligned Hindex).
  rewrite !SeriesFacts.index_zip_with by exact Hindex.
  repeat split; try reflexivity;
    now apply (SeriesFacts.nth_error_zip_with _ xa ya i t t n d).
Qed.

(** X8: at a label where either aligned operand is missing, the result of
    each of the four operators is missing. *)
Theorem operators_propagate_missing :
  exists ra rs rm rd : series,
    Algebra.add align x y m = Ok ra /\
    Algebra.subtract align x y m = Ok rs /\
    Algebra.multiply align x y m = Ok rm /\
    Algebra.divide align x y m = Ok rd /\
    forall (i : nat) (t : timestamp) (n d : float),
      nth_error xa i = Some (t, n) -> nth_error ya i = Some (t, d) ->
      is_nan n = true \/ is_nan d = true ->
      option_map (fun row => is_nan (snd row)) (nth_error ra i) = Some true /\
      option_map (fun row => is_nan (snd row)) (nth_error rs i) = Some true /\
      option_map (fun row => is_nan (snd row)) (nth_error rm i) = Some true /\
      option_map (fun row => is_nan (snd row)) (nth_error rd i) = Some true.
Proof.
  exists (zip_with PrimFloat.add xa ya), (zip_with PrimFloat.sub xa ya),
    (zip_with PrimFloat.mul xa ya), (zip_with PrimFloat.div xa ya).
  unfold Algebra.add, Algebra.subtract, Algebra.multiply, Algebra.divide.
  rewrite !(OperatorFacts.binop_aligned align _ x y m xa ya Haligned Hindex).
  do 4 (split; [reflexivity |]).
  intros i t n d Hn Hd Hnan.
  destruct (FloatLaws.nan_propagates n d Hnan) as (Ha & Hs & Hm & Hq).
  repeat split; now apply (OperatorFacts.nth_error_zip_with_nan _ xa ya i t t n d).
Qed.

(** X10: when the engine returns the same two series for the operands in
    either order, [add] and [multiply] do not depend on the order of their
    operands. *)
Theorem add_multiply_commute :
  align y x m = Ok (Series ya, Series xa) ->
  Algebra.add align x y m = Algebra.add align y x m /\
  Algebra.multiply align x y m = Algebra.multiply align y x m.
Proof.
  intros Hswap. unfold Algebra.add, Algebra.multiply.
  rewrite !(OperatorFacts.binop_aligned align _ x y m xa ya Haligned Hindex).
  rewrite !(OperatorFacts.binop_aligned align _ y x m ya xa Hswap (eq_sym Hindex)).
  split; f_equal; apply OperatorFacts.zip_with_comm; auto;
    [apply FloatLaws.float_add_comm | apply FloatLaws.float_mul_comm].
Qed.

End AlignedOperands.

(** X11: a series minus itself, when the engine returns it unchanged on both
    sides, is a series over the same index that is zero at every finite
    value. *)
Theorem subtract_self_is_zero
  (align : operand -> operand -> Interpolate -> result (operand * operand))
  (x : operand) (m : Interpolate) (xa : series) :
  align x x m = Ok (Series xa, Series xa) ->
  exists r : series,
    Algebra.subtract align x x m = Ok r /\
    index r = index xa /\
    forall (i : nat) (t : timestamp) (v : float),
      nth_error xa i = Some (t, v) -> is_finite v = true ->
      nth_error r i = Some (t, 0%float).
Proof.
  intros H. exists (zip_with PrimFloat.sub xa xa). unfold Algebra.subtract.
  rewrite (OperatorFacts.binop_aligned align _ x x m xa xa H eq_refl).
  split; [reflexivity |]. split; [now apply SeriesFacts.index_zip_with |].
  intros i t v Hv Hfin.
  rewrite (SeriesFacts.nth_error_zip_with _ xa xa i t t v v Hv Hv).
  now rewrite FloatLaws.float_sub_diag.
Qed.

Lemma subtract_self_is_zero_example :
  exists r : series,
    Algebra.subtract Datetime.align (Series Scenario.a) (Series Scenario.a) STEP = Ok r /\
    index r = index Scenario.a /\
    forall (i : nat) (t : timestamp) (v : float),
      nth_error Scenario.a i = Some (t, v) -> is_finite v = true ->
      nth_error r i = Some (t, 0%float).
Proof.
  exact (subtract_self_is_zero Datetime.align (Series Scenario.a) STEP Scenario.a
           eq_refl).
Defined.

Lemma operators_are_pointwise_example :
  exists ra rs rm : series,
    Algebra.add Datetime.align (Series Scenario.a) (Series Scenario.b) NAN = Ok ra /\
    Algebra.subtract Datetime.align (Series Scenario.a) (Series Scenario.b) NAN = Ok rs /\
    Algebra.multiply Datetime.align (Series Scenario.a) (Series Scenario.b) NAN = Ok rm /\
    index ra = index Example.a_nan /\ index rs = index Example.a_nan /\
    index rm = index Example.a_nan /\
    forall (i : nat) (t : timestamp) (n d : float),
      nth_error Example.a_nan i = Some (t, n) ->
      nth_error Example.b_nan i = Some (t, d) ->
      nth_error ra i = Some (t, (n + d)%float) /\
      nth_error rs i = Some (t, (n - d)%float) /\
      nth_error rm i = Some (t, (n * d)%float).
Proof.
  exact (operators_are_pointwise Datetime.align (Series Scenario.a) (Series Scenario.b)
           NAN Example.a_nan Example.b_nan eq_refl eq_refl).
Defined.

Lemma operators_propagate_missing_example :
  exists ra rs rm rd : series,
    Algebra.add Datetime.align (Series Scenario.a) (Series Scenario.b) NAN = Ok ra /\
    Algebra.subtract Datetime.align (Series Scenario.a) (Series Scenario.b) NAN = Ok rs /\
    Algebra.multiply Datetime.align (Series Scenario.a) (Series Scenario.b) NAN = Ok rm /\
    Algebra.divide Datetime.align (Series Scenario.a) (Series Scenario.b) NAN = Ok rd /\
    forall (i : nat) (t : timestamp) (n d : float),
      nth_error Example.a_nan i = Some (t, n) ->
      nth_error Example.b_nan i = Some (t, d) ->
      is_nan n = true \/ is_nan d = true ->
      option_map (fun row => is_nan (snd row)) (nth_error ra i) = Some true /\
      option_map (fun row => is_nan (snd row)) (nth_error rs i) = Some true /\
      option_map (fun row => is_nan (snd row)) (nth_error rm i) = Some true /\
      option_map (fun row => is_nan (snd row)) (nth_error rd i) = Some true.
Proof.
  exact (operators_propagate_missing Datetime.align (Series Scenario.a)
           (Series Scenario.b) NAN Example.a_nan Example.b_nan eq_refl eq_refl).
Defined.

Lemma add_multiply_commute_example :
  Algebra.add Datetime.align (Series Scenario.a) (Series Scenario.b) ZERO
    = Algebra.add Datetime.align (Series Scenario.b) (Series Scenario.a) ZERO /\
  Algebra.multiply Datetime.align (Series Scenario.a) (Series Scenario.b) ZERO
    = Algebra.multiply Datetime.align (Series Scenario.b) (Series Scenario.a) ZERO.
Proof.
  exact (add_multiply_commute Datetime.align (Series Scenario.a) (Series Scenario.b)
           ZERO Example.a_zero Example.b_zero eq_refl eq_refl eq_refl).
Defined.


(** X12: [sqrt] never returns a negative value: it returns for every series
    a series none of whose values is below zero, and for every scalar that is
    not negative a number that is not below zero. *)
Theorem sqrt_is_never_negative :
  (forall s : series,
      exists r : series,
        Algebra.sqrt (Series s) = Ok (Series r) /\
        Forall (fun v => (v <? 0)%float = false) (values r)) /\
  (forall v : float,
      (v <? 0)%float = false ->
      exists r : float,
        Algebra.sqrt (Scalar v) = Ok (Scalar r) /\ (r <? 0)%float = false).
Proof.
  split.
  - intros s. eexists. split; [reflexivity |].
    rewrite SeriesFacts.values_apply.
    apply Forall_forall. intros v (u & <- & _)%in_map_iff.
    apply FloatLaws.sqrt_not_negative.
  - intros v Hv. exists (PrimFloat.sqrt v). split.
    + unfold Algebra.sqrt. now rewrite FloatFacts.math_sqrt_spec, Hv.
    + apply FloatLaws.sqrt_not_negative.
Qed.

Lemma sqrt_is_never_negative_example :
  exists r : float,
    Algebra.sqrt (Scalar 4%float) = Ok (Scalar r) /\ (r <? 0)%float = false.
Proof.
  exact (proj2 sqrt_is_never_negative 4%float eq_refl).
Defined.
